(** * konf: the file provider and the Config store it plugs into

    Shallow embedding of [provider/file/file.go] (type [File] with [New],
    [Load] and [String]) and, for the properties that speak about the store
    the provider is loaded into, of the [Config] operations [Load] and [Watch].
    The providers and the log handler defined beside the tests
    ([stringWatcher], [statusWatcher], [logHandler]) are embedded as well.

    Go values are modelled as follows.
    - [string] is [String.string], [[]byte] is [list Byte.byte].
    - [error] is an inductive type: an [errors.New] leaf or an [fmt.Errorf]
      wrapper built with the verb [%w]; the absent error is [None].
    - [map[string]any] is [GoMap]: [None] is the nil map, [Some l] a map given
      by its entries.
    - a pointer receiver [*File] is [option File] ([None] is the nil pointer),
      threaded through a small state monad together with the trace of
      operating-system calls; a run-time panic is an outcome of its own.
    - a Go function value that the code compares with nil or calls without a
      check is an [option] of a Rocq function. *)

From Stdlib Require Import List String Ascii Bool Arith Lia.
From Stdlib Require Import Floats.PrimFloat.
From Stdlib.Strings Require Byte.
Import ListNotations.
Local Open Scope list_scope.
Local Open Scope string_scope.

(** ** Errors *)

Module Err.

(** [errors.New s] and [fmt.Errorf (prefix ++ "%w") cause]. *)
Inductive error : Type :=
| errors_New (text : string)
| fmt_Errorf (prefix : string) (cause : error).

(** The [Error()] method: the message of an error. *)
Fixpoint Error (e : error) : string :=
  match e with
  | errors_New text => text
  | fmt_Errorf prefix cause => prefix ++ Error cause
  end.

(** [errors.Unwrap]: the wrapped cause, if any. *)
Definition Unwrap (e : error) : option error :=
  match e with
  | errors_New _ => None
  | fmt_Errorf _ cause => Some cause
  end.

(** [contains sub s]: [sub] occurs in [s]. *)
Definition contains (sub s : string) : Prop :=
  exists before after, s = before ++ sub ++ after.

End Err.
Export Err.

(** ** Go values and outcomes *)

(** The dynamic values a decoder stores under a key of a [map[string]any]. *)
#[warnings="-register-all"]
Inductive any : Type :=
| Nil
| Bool (b : bool)
| Float64 (x : float)
| Str (s : string)
| Slice (elems : list any)
| Map (entries : list (string * any)).

Definition Tree : Type := list (string * any).

(** A value of type [map[string]any]; [None] is the nil map. *)
Definition GoMap : Type := option Tree.

(** How a call ends: it returns, or it panics with a message. *)
Inductive outcome (A : Type) : Type :=
| Returned (a : A)
| Panicked (msg : string).
Arguments Returned {A} a.
Arguments Panicked {A} msg.

Definition nil_dereference : string :=
  "runtime error: invalid memory address or nil pointer dereference".

(** ** The operating system and the decoders *)

Definition bytes : Type := list Byte.byte.

(** [func([]byte, any) error], called with a pointer to a [map[string]any]:
    the second argument is the map the pointer refers to before the call, the
    first result the map it refers to afterwards. A decoder is taken to be a
    function of these two inputs, as [json.Unmarshal] is. *)
Definition Unmarshaler : Type := bytes -> GoMap -> GoMap * option error.

(** The two operating-system services [file.go] calls, each returning the
    pair Go returns. *)
Record OS : Type := mkOS {
  os_ReadFile : string -> bytes * option error;
  filepath_Abs : string -> string * option error
}.

Inductive Event : Type :=
| EvReadFile (name : string)
| EvAbs (name : string).

(** ** provider/file *)

Module file.

Definition StatusHook : Type := bool -> option error -> list string.

(** [type File struct { path; unmarshal; onStatus }] *)
Record File : Type := mkFile {
  path : string;
  unmarshal : option Unmarshaler;
  onStatus : option StatusHook
}.

(** [options] has [File] as its underlying type ([New] converts the pointer);
    an [Option] is a Go function taking a pointer to [options], given here
    by its effect on the pointed-to struct; the function value may be nil. *)
Definition options : Type := File.
Definition Option : Type := option (options -> options).

(** The body of the [range opts] loop of [New]: calling a nil function
    value panics. *)
Fixpoint apply_options (opts : list Option) (option : options)
  : outcome options :=
  match opts with
  | [] => Returned option
  | None :: _ => Panicked nil_dereference
  | Some opt :: rest => apply_options rest (opt option)
  end.

(** [func New(path string, opts ...Option) *File] *)
Definition New (path : string) (opts : list Option) : outcome (option File) :=
  match apply_options opts (mkFile path None None) with
  | Returned option => Returned (Some option)
  | Panicked msg => Panicked msg
  end.

(** [var errNil = errors.New("nil File")] *)
Definition errNil : error := errors_New "nil File".

(** State threaded through a method call: the receiver and the trace of
    operating-system calls made so far. *)
Record St : Type := mkSt {
  self : option File;
  trace : list Event
}.

Definition M (A : Type) : Type := St -> outcome A * St.

Definition ret {A} (a : A) : M A := fun s => (Returned a, s).

Definition bind {A B} (m : M A) (k : A -> M B) : M B :=
  fun s =>
    match m s with
    | (Returned a, s') => k a s'
    | (Panicked msg, s') => (Panicked msg, s')
    end.

Notation "x <- m ;; k" := (bind m (fun x => k))
  (at level 61, m at next level, right associativity).
Notation "' pat <- m ;; k" := (bind m (fun x => match x with pat => k end))
  (at level 61, pat pattern, m at next level, right associativity).

(** [f == nil] *)
Definition self_is_nil : M bool :=
  fun s => (Returned (match self s with None => true | Some _ => false end), s).

(** A field read [f.x]: it panics on the nil receiver. *)
Definition field {A} (proj : File -> A) : M A :=
  fun s =>
    match self s with
    | Some f => (Returned (proj f), s)
    | None => (Panicked nil_dereference, s)
    end.

Definition emit (e : Event) : M unit :=
  fun s => (Returned tt, mkSt (self s) (trace s ++ [e])%list).

Section Methods.

Variable os : OS.
(** [json.Unmarshal] *)
Variable json_Unmarshal : Unmarshaler.

Definition ReadFile (name : string) : M (bytes * option error) :=
  _ <- emit (EvReadFile name) ;; ret (os_ReadFile os name).

Definition Abs (name : string) : M (string * option error) :=
  _ <- emit (EvAbs name) ;; ret (filepath_Abs os name).

(** [func (f *File) Load() (map[string]any, error)] *)
Definition Load : M (GoMap * option error) :=
  is_nil <- self_is_nil ;;
  if is_nil then ret (None, Some errNil)
  else
    p <- field path ;;
    ' (data, err) <- ReadFile p ;;
    match err with
    | Some err => ret (None, Some (fmt_Errorf "read file: " err))
    | None =>
        u <- field unmarshal ;;
        let unmarshal :=
          match u with
          | None => json_Unmarshal
          | Some u => u
          end in
        let '(out, err) := unmarshal data None in
        match err with
        | Some err => ret (None, Some (fmt_Errorf "unmarshal: " err))
        | None => ret (out, None)
        end
    end.

(** [func (f *File) String() string] *)
Definition String : M string :=
  p <- field path ;;
  ' (abs, err) <- Abs p ;;
  loc <- match err with
         | Some _ => fp <- field path ;; ret ("file:///" ++ fp)
         | None => ret abs
         end ;;
  ret ("file://" ++ loc).

End Methods.

End file.

(** ** The Config store

    The store is not part of [provider/file]; the tests of the package
    [konf_test] exercise it through [Load] and [Watch]. *)

Module konf.

(** Modelled from the spec: the key comparison of the Tree (keys are
    compared case-insensitively); the store's source is missing. *)
Definition lower_ascii (c : ascii) : ascii :=
  let n := nat_of_ascii c in
  if ((65 <=? n) && (n <=? 90))%nat then ascii_of_nat (n + 32) else c.

Fixpoint lower (s : string) : string :=
  match s with
  | EmptyString => EmptyString
  | String c rest => String (lower_ascii c) (lower rest)
  end.

Definition key_eqb (a b : string) : bool := String.eqb (lower a) (lower b).

(** Modelled from the spec: one key of a merge (the store's source is
    missing). The entry of [t] under [k] becomes [combine old]; without
    such an entry, [(k, v)] is added. *)
Fixpoint upsert (k : string) (v : any) (combine : any -> any) (t : Tree)
  : Tree :=
  match t with
  | [] => [(k, v)]
  | (k', old) :: rest =>
      if key_eqb k k' then (k', combine old) :: rest
      else (k', old) :: upsert k v combine rest
  end.

(** Modelled from the spec: the Merge Engine (the store's source is
    missing). Two sub-trees under one key are merged recursively;
    otherwise the incoming value replaces the base value. *)
Fixpoint merge_value (incoming : any) : any -> any :=
  match incoming with
  | Map ti =>
      fun base =>
        match base with
        | Map tb =>
            Map ((fix fold (l : Tree) (acc : Tree) {struct l} : Tree :=
                    match l with
                    | [] => acc
                    | (k, v) :: l' => fold l' (upsert k v (merge_value v) acc)
                    end) ti tb)
        | _ => incoming
        end
  | _ => fun _ => incoming
  end.

Definition merge_entry (acc : Tree) (kv : string * any) : Tree :=
  upsert (fst kv) (snd kv) (merge_value (snd kv)) acc.

(** Modelled from the spec: [Merge(base, incoming)], every key of
    [incoming] in turn (the store's source is missing). *)
Definition Merge (base incoming : Tree) : Tree :=
  fold_left merge_entry incoming base.

(** Modelled from the spec: merging what a provider returned (the store's
    source is missing); the nil map adds nothing. *)
Definition merge_loaded (base : Tree) (loaded : GoMap) : Tree :=
  match loaded with
  | None => base
  | Some incoming => Merge base incoming
  end.

(** Modelled from the spec: the Provider Contract (the interface
    declarations are missing). [prov_Load] is what the [Load] capability
    returns; the optional capabilities are present or absent. *)
Record Provider : Type := mkProvider {
  prov_Name : option string;
  prov_Load : GoMap * option error;
  prov_Watch : bool;
  prov_Status : bool
}.

(** Modelled from the spec: the Watch Session State. *)
Inductive WatchState : Type := Idle | Running | Stopped.

(** Modelled from the spec: the Config Store, its tree and its
    registration list. *)
Record Config : Type := mkConfig {
  values : Tree;
  providers : list Provider;
  watched : WatchState
}.

Inductive Level : Type := INFO | WARN.
Definition LogLine : Type := (Level * string)%type.

(** Modelled from the spec: the store together with what a call leaves
    behind outside of it (the store's source is missing): the
    lines written to the log sink, the watch tasks started, and the
    providers whose [Load] capability was invoked, each in order. *)
Record Runtime : Type := mkRuntime {
  store : Config;
  log : list LogLine;
  tasks : list Provider;
  loadCalls : list Provider
}.

Definition fresh : Runtime := mkRuntime (mkConfig [] [] Idle) [] [] [].

(** Modelled from the spec: [Config.Load] (section 4.3; its source is
    missing). The wrapping context is the one [TestConfig_error] expects. *)
Fixpoint Load (ps : list Provider) (r : Runtime) : Runtime * option error :=
  match ps with
  | [] => (r, None)
  | p :: rest =>
      let calls := (loadCalls r ++ [p])%list in
      match prov_Load p with
      | (_, Some err) =>
          (mkRuntime (store r) (log r) (tasks r) calls,
           Some (fmt_Errorf "load configuration: " err))
      | (loaded, None) =>
          let c := store r in
          let c' := mkConfig (merge_loaded (values c) loaded)
                             (providers c ++ [p])%list (watched c) in
          Load rest (mkRuntime c' (log r) (tasks r) calls)
      end
  end.

(** A cancellation token. *)
Record Context : Type := mkContext { ctx_id : nat }.

(** How a [Watch] call proceeds: it returns, it panics, or it has started
    its tasks and blocks until the token is cancelled. *)
Inductive WatchCall : Type :=
| WatchReturned (err : option error)
| WatchPanicked (msg : string)
| WatchBlocked.

Definition watchTwiceWarning : LogLine :=
  (WARN, "Config has been watched, call Watch more than once has no effects.").

Section Watching.

(** Whether a [Watch] call on a Stopped session starts a new session; the
    spec leaves this choice open. *)
Variable restartable : bool.

Definition start (r : Runtime) : Runtime * WatchCall :=
  let c := store r in
  (mkRuntime (mkConfig (values c) (providers c) Running) (log r)
             (tasks r ++ filter prov_Watch (providers c))%list
             (loadCalls r),
   WatchBlocked).

Definition already (r : Runtime) : Runtime * WatchCall :=
  (mkRuntime (store r) (log r ++ [watchTwiceWarning])%list (tasks r)
             (loadCalls r),
   WatchReturned None).

(** Modelled from the spec: [Config.Watch] up to the point where it
    blocks (section 4.4, steps 1 to 3; its source is missing). The panic
    message is the one [TestConfig_Watch_panic] recovers. *)
Definition Watch (ctx : option Context) (r : Runtime) : Runtime * WatchCall :=
  match ctx with
  | None => (r, WatchPanicked "cannot create context from nil parent")
  | Some _ =>
      match watched (store r) with
      | Idle => start r
      | Running => already r
      | Stopped => if restartable then start r else already r
      end
  end.

(** Modelled from the spec: the end of [Config.Watch] (section 4.4,
    step 5; its source is missing). The token fired and every task
    returned [results]; the first error, if any, is reported. *)
Definition finish (results : list (option error)) (r : Runtime)
  : Runtime * option error :=
  let c := store r in
  (mkRuntime (mkConfig (values c) (providers c) Stopped) (log r) []
             (loadCalls r),
   match filter (fun e => match e with Some _ => true | None => false end)
                results with
   | Some err :: _ =>
       Some (fmt_Errorf "watch configuration change on error: " err)
   | _ => None
   end).

End Watching.

(** [n] calls of [Watch] in a row with the token [ctx]; the state after
    the last one. *)
Fixpoint Watch_times (restartable : bool) (n : nat) (ctx : Context)
         (r : Runtime) : Runtime :=
  match n with
  | O => r
  | S n' => Watch_times restartable n' ctx
                        (fst (Watch restartable (Some ctx) r))
  end.

End konf.

(** ** Inputs used in the examples

    A file system with one configuration file, a decoder for the contents
    used here, and the providers of the test file. *)

Module Fixtures.
Import file konf.

Definition starts_with_slash (s : string) : bool :=
  match s with
  | Strings.String.String "/" _ => true
  | _ => false
  end.

(** [getwd] is what [os.Getwd] returns: [filepath.Abs] needs it for a
    relative path only. *)
Definition abs_with (getwd : string * option error) (name : string)
  : string * option error :=
  if starts_with_slash name then (name, None)
  else
    match getwd with
    | (_, Some err) => ("", Some err)
    | (wd, None) => (wd ++ "/" ++ name, None)
    end.

Definition read_demo (name : string) : bytes * option error :=
  if String.eqb name "config.json" then (list_byte_of_string "{}", None)
  else if String.eqb name "broken.json" then (list_byte_of_string "{", None)
  else ([],
        Some (errors_New ("open " ++ name ++ ": no such file or directory"))).

Definition os_demo : OS := mkOS read_demo (abs_with ("/srv/app", None)).

(** The working directory was removed: [os.Getwd] fails. *)
Definition os_nowd : OS :=
  mkOS read_demo
       (abs_with ("", Some (errors_New "getwd: no such file or directory"))).

Definition decode_demo : Unmarshaler :=
  fun data out =>
    let text := string_of_list_byte data in
    if String.eqb text "{}" then (Some [], None)
    else if String.eqb text "null" then (None, None)
    else (out, Some (errors_New "unexpected end of JSON input")).

(** A decoder given by an option: every content is one fixed entry. *)
Definition decode_fixed : Unmarshaler :=
  fun _ _ => (Some [("config", Str "fixed")], None).

Definition hook_demo : StatusHook :=
  fun ok err =>
    match err with
    | Some e => [Error e]
    | None => []
    end.

Definition config_json : File := mkFile "config.json" None None.
Definition broken_json : File := mkFile "broken.json" None None.
Definition missing_json : File := mkFile "missing.json" None None.

(** [stringWatcher{key: "Config"}] *)
Definition stringWatcher : Provider :=
  mkProvider (Some "stringWatcher") (Some [("Config", Str "")], None)
             true false.


(** [errorWatcher{}] *)
Definition errorWatcher : Provider :=
  mkProvider (Some "error") (None, None) true false.

(** [&statusWatcher{}] *)
Definition statusWatcher : Provider :=
  mkProvider (Some "status") (None, None) true true.

End Fixtures.

(** ** What the claims compare the code with *)

Module Claimed.
Import file konf.

(** The decoder [Load] uses: the one of the [File], or the default. *)
Definition decoder (json_Unmarshal : Unmarshaler) (f : File) : Unmarshaler :=
  match unmarshal f with
  | None => json_Unmarshal
  | Some u => u
  end.

(** The identity as first described: the URI of the absolute path, and the
    given path itself when there is no absolute path. *)
Definition identity_or_literal (os : OS) (f : File) : string :=
  match filepath_Abs os (path f) with
  | (abs, None) => "file://" ++ abs
  | (_, Some _) => path f
  end.






End Claimed.

(** ** The providers and the log handler of the test file

    The helper types next to the tests: [stringWatcher], [statusWatcher] and
    the [ReplaceAttr] function of [logHandler]. A channel receive and the
    [Done] channel of a context are the two cases of a [select]; which one
    is ready at each turn of the loop is given by a schedule. *)

Module konf_test.

(** The case a [select] takes at one turn: a value arrived on the channel
    [m.value], or the context was cancelled. *)
Inductive Ready : Type :=
| Recv (values : string)
| Cancelled.

(** How a blocking call stands when the schedule is used up: it returned, it
    still waits in its [select], or it panicked. *)
Inductive Run (A : Type) : Type :=
| Finished (a : A)
| Waiting
| Crashed (msg : string).
Arguments Finished {A} a.
Arguments Waiting {A}.
Arguments Crashed {A} msg.

(** [type stringWatcher struct { key string; value chan string }]; what the
    channel delivers is in the schedule. *)
Record stringWatcher : Type := mk_stringWatcher {
  key : string
}.

(** [func (m stringWatcher) Load() (map[string]any, error)] *)
Definition stringWatcher_Load (m : stringWatcher) : GoMap * option error :=
  (Some [(key m, Str "")], None).

(** [func (m stringWatcher) String() string] *)
Definition stringWatcher_String (m : stringWatcher) : string :=
  "stringWatcher".

Section Watchers.

(** What the callbacks act on. *)
Variable W : Type.

(** [func(map[string]any)], possibly nil. *)
Definition OnDelta : Type := option (Tree -> W -> W).

(** The [for { select { ... } }] loop of [stringWatcher.Watch]. *)
Fixpoint stringWatcher_loop (m : stringWatcher) (fn : OnDelta)
         (schedule : list Ready) (w : W) : Run (option error) * W :=
  match schedule with
  | [] => (Waiting, w)
  | Recv values :: rest =>
      match fn with
      | None => (Crashed nil_dereference, w)
      | Some fn' =>
          stringWatcher_loop m fn rest (fn' [(key m, Str values)] w)
      end
  | Cancelled :: _ => (Finished None, w)
  end.

(** [func (m stringWatcher) Watch(ctx context.Context, fn func(map[string]any))
    error]; entering the [select] calls [ctx.Done()], which panics on the nil
    context. *)
Definition stringWatcher_Watch (m : stringWatcher) (ctx : option konf.Context)
           (fn : OnDelta) (schedule : list Ready) (w : W)
  : Run (option error) * W :=
  match ctx with
  | None => (Crashed nil_dereference, w)
  | Some _ => stringWatcher_loop m fn schedule w
  end.

(** [func(bool, error)], possibly nil. *)
Definition OnStatus : Type := option (bool -> option error -> W -> W).

(** [type statusWatcher struct { onStatus func(bool, error) }] *)
Record statusWatcher : Type := mk_statusWatcher {
  sw_onStatus : OnStatus
}.

(** [Load() (map[string]any, error)] of the pointer to a [statusWatcher]: the
    receiver is not dereferenced. *)
Definition statusWatcher_Load (s : option statusWatcher)
  : GoMap * option error :=
  (None, None).



(** [func (errorWatcher) Watch(context.Context, func(map[string]any)) error] *)
Definition errorWatcher_Watch (ctx : option konf.Context) (fn : OnDelta)
           (w : W) : outcome (option error) * W :=
  (Returned (Some (errors_New "watch error")), w).

End Watchers.

Section Attrs.

(** [slog.Value] and its zero value. *)
Variable Value : Type.
Variable zeroValue : Value.

(** [slog.Attr] *)
Record Attr : Type := mkAttr {
  Key : string;
  Val : Value
}.

(** [slog.TimeKey] *)
Definition TimeKey : string := "time".

(** The [ReplaceAttr] function [logHandler] installs. *)
Definition ReplaceAttr (groups : list string) (attr : Attr) : Attr :=
  if (Nat.eqb (List.length groups) 0 && String.eqb (Key attr) TimeKey)%bool
  then mkAttr "" zeroValue
  else attr.

End Attrs.

End konf_test.

(** * Properties of the file provider *)

Module file_spec.
Import file Fixtures Claimed.

Ltac run_monad :=
  unfold Load, String, ReadFile, Abs, bind, ret, emit, field, self_is_nil;
  simpl.

(** One call of [Load] on a non-nil receiver: what it returns and the state
    it leaves. *)
Lemma Load_non_nil (os : OS) (json : Unmarshaler) (f : File) (tr : list Event) :
  Load os json (mkSt (Some f) tr) =
  (Returned
     (match os_ReadFile os (path f) with
      | (_, Some err) => (None, Some (fmt_Errorf "read file: " err))
      | (data, None) =>
          match decoder json f data None with
          | (_, Some err) => (None, Some (fmt_Errorf "unmarshal: " err))
          | (out, None) => (out, None)
          end
      end),
   mkSt (Some f) (tr ++ [EvReadFile (path f)])%list).
Proof.
  run_monad.
  destruct (os_ReadFile os (path f)) as [data [rerr|]]; simpl; [reflexivity|].
  unfold decoder.
  destruct (unmarshal f) as [u|].
  - destruct (u data None) as [out [derr|]]; reflexivity.
  - destruct (json data None) as [out [derr|]]; reflexivity.
Qed.

Lemma Load_nil (os : OS) (json : Unmarshaler) (tr : list Event) :
  Load os json (mkSt None tr) = (Returned (None, Some errNil), mkSt None tr).
Proof. reflexivity. Qed.

(** One call of [String] on a non-nil receiver. *)
Lemma String_non_nil (os : OS) (f : File) (tr : list Event) :
  String os (mkSt (Some f) tr) =
  (Returned
     ("file://" ++ match filepath_Abs os (path f) with
                   | (_, Some _) => "file:///" ++ path f
                   | (abs, None) => abs
                   end),
   mkSt (Some f) (tr ++ [EvAbs (path f)])%list).
Proof.
  run_monad.
  destruct (filepath_Abs os (path f)) as [abs [err|]]; reflexivity.
Qed.

Lemma prefix_append (p rest : string) : prefix p (p ++ rest) = true.
Proof.
  induction p as [|a p IH]; simpl.
  - destruct rest; reflexivity.
  - destruct (ascii_dec a a) as [_|Hne]; [exact IH | now elim Hne].
Qed.






(** C1 (as stated, refuted): without a working directory the identity of
    the relative path [conf.json] is not the given path itself; it is the
    given path behind two prefixes. *)
Lemma String_fallback_is_not_literal :
  fst (String os_nowd (mkSt (Some (mkFile "conf.json" None None)) []))
    = Returned "file://file:///conf.json"
  /\ fst (String os_nowd (mkSt (Some (mkFile "conf.json" None None)) []))
    <> Returned (identity_or_literal os_nowd (mkFile "conf.json" None None)).
Proof.
  split; [reflexivity|].
  vm_compute. intros H. discriminate H.
Qed.

(** C1 (amended): [String] returns ["file://"] followed by the absolute form
    of the path when [filepath.Abs] succeeds; when it fails, [String] returns
    a string that starts with ["file://"] and ends with the given path. *)
Theorem String_identity (os : OS) (f : File) (tr : list Event) :
  (forall abs, filepath_Abs os (path f) = (abs, None) ->
     fst (String os (mkSt (Some f) tr)) = Returned ("file://" ++ abs))
  /\ (forall abs err, filepath_Abs os (path f) = (abs, Some err) ->
     exists middle,
       fst (String os (mkSt (Some f) tr))
       = Returned ("file://" ++ middle ++ path f)).
Proof.
  rewrite String_non_nil; simpl; split.
  - intros abs H; rewrite H; reflexivity.
  - intros abs err H; rewrite H. exists "file:///". reflexivity.
Qed.

Lemma String_identity_witness :
  fst (String os_demo (mkSt (Some config_json) []))
    = Returned "file:///srv/app/config.json"
  /\ exists middle,
       fst (String os_nowd (mkSt (Some config_json) []))
       = Returned ("file://" ++ middle ++ "config.json").
Proof.
  split.
  - apply (proj1 (String_identity os_demo config_json [])
                 "/srv/app/config.json").
    reflexivity.
  - apply (proj2 (String_identity os_nowd config_json [])
                 "" (errors_New "getwd: no such file or directory")).
    reflexivity.
Defined.

(** C2: on a non-nil [File], a failed read or a failed decode makes [Load]
    return the nil tree and an error that wraps the failure; [Load] returns
    no error only when the read and the decode both succeeded. *)
Theorem Load_reports_failure (os : OS) (json : Unmarshaler) (f : File)
        (tr : list Event) :
  (forall data e, os_ReadFile os (path f) = (data, Some e) ->
     exists err,
       fst (Load os json (mkSt (Some f) tr)) = Returned (None, Some err)
       /\ Unwrap err = Some e
       /\ Error err = "read file: " ++ Error e)
  /\ (forall data out e,
        os_ReadFile os (path f) = (data, None) ->
        decoder json f data None = (out, Some e) ->
        exists err,
          fst (Load os json (mkSt (Some f) tr)) = Returned (None, Some err)
          /\ Unwrap err = Some e
          /\ Error err = "unmarshal: " ++ Error e)
  /\ (forall tree,
        fst (Load os json (mkSt (Some f) tr)) = Returned (tree, None) ->
        exists data,
          os_ReadFile os (path f) = (data, None)
          /\ decoder json f data None = (tree, None)).
Proof.
  rewrite Load_non_nil; simpl; repeat split.
  - intros data e H; rewrite H.
    exists (fmt_Errorf "read file: " e); repeat split; reflexivity.
  - intros data out e Hr Hd; rewrite Hr, Hd.
    exists (fmt_Errorf "unmarshal: " e); repeat split; reflexivity.
  - intros tree.
    destruct (os_ReadFile os (path f)) as [data [rerr|]]; [discriminate|].
    destruct (decoder json f data None) as [out [derr|]] eqn:Hd;
      [discriminate|].
    intros H; injection H as ->. exists data; split; [reflexivity|exact Hd].
Qed.

Lemma Load_reports_failure_witness :
  (exists err,
      fst (Load os_demo decode_demo (mkSt (Some missing_json) []))
      = Returned (None, Some err)
      /\ Unwrap err
         = Some (errors_New "open missing.json: no such file or directory")
      /\ Error err
         = "read file: open missing.json: no such file or directory")
  /\ (exists err,
      fst (Load os_demo decode_demo (mkSt (Some broken_json) []))
      = Returned (None, Some err)
      /\ Unwrap err = Some (errors_New "unexpected end of JSON input")
      /\ Error err = "unmarshal: unexpected end of JSON input")
  /\ (exists data,
      os_ReadFile os_demo (path config_json) = (data, None)
      /\ decoder decode_demo config_json data None = (Some [], None)).
Proof.
  split; [|split].
  - apply (proj1 (Load_reports_failure os_demo decode_demo missing_json [])
                 []).
    reflexivity.
  - apply (proj1 (proj2 (Load_reports_failure os_demo decode_demo
                                              broken_json []))
                 (list_byte_of_string "{") None).
    + reflexivity.
    + reflexivity.
  - apply (proj2 (proj2 (Load_reports_failure os_demo decode_demo
                                              config_json []))).
    reflexivity.
Defined.

(** C3: on a non-nil [File] whose [unmarshal] is nil, [Load] hands all the
    bytes it read to [json.Unmarshal], with a nil map as target, and when
    that succeeds returns exactly the map it decoded. *)
Theorem Load_default_decode (os : OS) (json : Unmarshaler) (f : File)
        (tr : list Event) (data : bytes) (out : GoMap) :
  unmarshal f = None ->
  os_ReadFile os (path f) = (data, None) ->
  json data None = (out, None) ->
  Load os json (mkSt (Some f) tr)
  = (Returned (out, None), mkSt (Some f) (tr ++ [EvReadFile (path f)])%list).
Proof.
  intros Hu Hr Hd.
  rewrite Load_non_nil, Hr. unfold decoder. rewrite Hu, Hd. reflexivity.
Qed.

Lemma Load_default_decode_witness :
  Load os_demo decode_demo (mkSt (Some config_json) [])
  = (Returned (Some [], None),
     mkSt (Some config_json) [EvReadFile "config.json"]).
Proof.
  apply (Load_default_decode os_demo decode_demo config_json []
                             (list_byte_of_string "{}") (Some []));
    reflexivity.
Defined.



(** C8: [Load] on the nil receiver returns the nil tree and the error
    ["nil File"]; it does not panic and reads no file (the trace is the one
    it started with). *)
Theorem Load_nil_receiver (os : OS) (json : Unmarshaler) (tr : list Event) :
  Load os json (mkSt None tr) = (Returned (None, Some errNil), mkSt None tr)
  /\ Error errNil = "nil File".
Proof. split; reflexivity. Qed.




(** C10: on a non-nil [File], [String] does not panic and what it returns
    begins with ["file://"], whether [filepath.Abs] succeeds or fails. *)
Theorem String_total (os : OS) (f : File) (tr : list Event) :
  exists rest,
    fst (String os (mkSt (Some f) tr)) = Returned ("file://" ++ rest)
    /\ prefix "file://" ("file://" ++ rest) = true.
Proof.
  rewrite String_non_nil. cbn [fst].
  eexists; split; [reflexivity | apply prefix_append].
Qed.

End file_spec.

(** * Properties of the Config store *)

Module konf_spec.
Import konf Fixtures Claimed.

(** The recursive case of the Merge Engine is [Merge] on the sub-trees. *)
Lemma merge_value_Map (ti tb : Tree) :
  merge_value (Map ti) (Map tb) = Map (Merge tb ti).
Proof.
  unfold Merge. simpl. f_equal.
  revert tb; induction ti as [|[k v] ti IH]; intros tb; simpl.
  - reflexivity.
  - apply IH.
Qed.

Example Merge_is_case_insensitive :
  Merge [("Config", Map [("a", Str "1"); ("b", Str "2")])]
        [("config", Map [("B", Str "3")]); ("other", Nil)]
  = [("Config", Map [("a", Str "1"); ("b", Str "3")]); ("other", Nil)].
Proof. reflexivity. Qed.

Example Merge_last_write_wins :
  Merge [("config", Map [("a", Str "1")])] [("config", Str "flat")]
  = [("config", Str "flat")].
Proof. reflexivity. Qed.







(** Repeated [Watch] calls on a running session: as many warnings as
    calls, and the tasks stay. *)
Lemma Watch_times_running (restartable : bool) (n : nat) (ctx : Context)
      (r : Runtime) :
  watched (store r) = Running ->
  store (Watch_times restartable n ctx r) = store r
  /\ tasks (Watch_times restartable n ctx r) = tasks r
  /\ log (Watch_times restartable n ctx r)
     = (log r ++ repeat watchTwiceWarning n)%list.
Proof.
  revert r; induction n as [|n IH]; intros r Hrun; cbn [Watch_times].
  - rewrite app_nil_r. repeat split.
  - assert (Hstep : fst (Watch restartable (Some ctx) r)
                    = mkRuntime (store r) (log r ++ [watchTwiceWarning])
                                (tasks r) (loadCalls r)).
    { unfold Watch. rewrite Hrun. reflexivity. }
    rewrite Hstep.
    destruct (IH (mkRuntime (store r) (log r ++ [watchTwiceWarning])
                            (tasks r) (loadCalls r)) Hrun)
      as (Hs & Ht & Hl).
    rewrite Hs, Ht, Hl. cbn [store tasks log repeat].
    rewrite <- app_assoc. repeat split.
Qed.

(** C6: on a store whose watch session is running, a further [Watch] call
    (with a token) returns no error at once, starts no task, and writes
    exactly one line to the log, the warning that the call "has no
    effects"; the store itself is as before. *)
Theorem Watch_twice (restartable : bool) (ctx : Context) (r : Runtime) :
  watched (store r) = Running ->
  let r' := fst (Watch restartable (Some ctx) r) in
  snd (Watch restartable (Some ctx) r) = WatchReturned None
  /\ tasks r' = tasks r
  /\ log r' = (log r ++ [watchTwiceWarning])%list
  /\ store r' = store r
  /\ fst watchTwiceWarning = WARN
  /\ contains "has no effects" (snd watchTwiceWarning).
Proof.
  intros Hrun r'. subst r'. unfold Watch. rewrite Hrun. unfold already.
  cbn [fst snd tasks log store].
  repeat split.
  exists "Config has been watched, call Watch more than once ", ".".
  reflexivity.
Qed.

Lemma Watch_twice_witness :
  let started :=
    fst (Watch false (Some (mkContext 1))
               (fst (Load [stringWatcher] fresh))) in
  tasks started = [stringWatcher]
  /\ snd (Watch false (Some (mkContext 2)) started) = WatchReturned None
  /\ tasks (fst (Watch false (Some (mkContext 2)) started)) = [stringWatcher]
  /\ log (fst (Watch false (Some (mkContext 2)) started))
     = [watchTwiceWarning].
Proof.
  intros started.
  destruct (Watch_twice false (mkContext 2) started eq_refl)
    as (Hret & Htasks & Hlog & _).
  split; [reflexivity|]. split; [exact Hret|].
  split; [exact Htasks | exact Hlog].
Defined.

(** C7: on every store, [Watch] called without a cancellation token
    panics with the message "cannot create context from nil parent": it
    returns no error value, and leaves the store, the log and the tasks
    alone. *)
Theorem Watch_nil_context (restartable : bool) (r : Runtime) :
  Watch restartable None r
  = (r, WatchPanicked "cannot create context from nil parent").
Proof. reflexivity. Qed.

End konf_spec.


(** * Further properties of the file provider *)

Module file_more.
Import file Fixtures Claimed.



(** A property of the struct that every option keeps holds of what the loop
    of [New] returns. *)
Lemma apply_options_invariant (P : options -> Prop)
      (fs : list (options -> options)) (o : options) :
  (forall g, In g fs -> forall x, P x -> P (g x)) ->
  P o ->
  exists o', apply_options (map Some fs) o = Returned o' /\ P o'.
Proof.
  revert o; induction fs as [|g fs IH]; intros o Hkeep Ho; simpl.
  - exists o; split; [reflexivity | exact Ho].
  - apply IH.
    + intros g' Hin. apply Hkeep. right; exact Hin.
    + apply Hkeep; [left; reflexivity | exact Ho].
Qed.


(** X2: when every option is a non-nil function that leaves the [path]
    field alone, whatever else it does, [New] returns a [File] whose path is
    the one given. *)
Theorem New_keeps_path (p : string) (fs : list (options -> options)) :
  (forall g, In g fs -> forall o, path (g o) = path o) ->
  exists f, New p (map Some fs) = Returned (Some f) /\ path f = p.
Proof.
  intros Hkeep.
  destruct (apply_options_invariant (fun o => path o = p) fs
                                    (mkFile p None None))
    as (o' & Hrun & Hpath).
  - intros g Hin x Hx. rewrite (Hkeep g Hin). exact Hx.
  - reflexivity.
  - exists o'. unfold New. rewrite Hrun. split; [reflexivity | exact Hpath].
Qed.

Lemma New_keeps_path_witness :
  exists f,
    New "config.json"
        (map Some [fun o : options =>
                     mkFile (path o) (Some decode_fixed) (onStatus o);
                   fun o : options =>
                     mkFile (path o) (unmarshal o) (Some hook_demo)])
    = Returned (Some f)
    /\ path f = "config.json".
Proof.
  apply (New_keeps_path
           "config.json"
           [fun o : options => mkFile (path o) (Some decode_fixed) (onStatus o);
            fun o : options => mkFile (path o) (unmarshal o) (Some hook_demo)]).
  intros g [<-|[<-|[]]] o; reflexivity.
Defined.


(** X4: every error [Load] returns has one of three forms: [errNil] on the
    nil receiver; ["read file: "] wrapping the error of [os.ReadFile]; or,
    the read having succeeded, ["unmarshal: "] wrapping the error of the
    decoder on the bytes read. *)
Theorem Load_error_forms (os : OS) (json : Unmarshaler) (fp : option File)
        (tr : list Event) (tree : GoMap) (e : error) :
  fst (Load os json (mkSt fp tr)) = Returned (tree, Some e) ->
  (fp = None /\ e = errNil)
  \/ (exists f data cause,
         fp = Some f
         /\ os_ReadFile os (path f) = (data, Some cause)
         /\ e = fmt_Errorf "read file: " cause)
  \/ (exists f data out cause,
         fp = Some f
         /\ os_ReadFile os (path f) = (data, None)
         /\ decoder json f data None = (out, Some cause)
         /\ e = fmt_Errorf "unmarshal: " cause).
Proof.
  destruct fp as [f|].
  - rewrite file_spec.Load_non_nil. cbn [fst].
    destruct (os_ReadFile os (path f)) as [data [rerr|]] eqn:Hr.
    + intros H; injection H as _ <-.
      right; left. exists f, data, rerr. repeat split. exact Hr.
    + destruct (decoder json f data None) as [out [derr|]] eqn:Hd.
      * intros H; injection H as _ <-.
        right; right. exists f, data, out, derr.
        repeat split; [exact Hr | exact Hd].
      * intros H; discriminate H.
  - rewrite file_spec.Load_nil. cbn [fst].
    intros H; injection H as _ <-. left; split; reflexivity.
Qed.

Lemma Load_error_forms_witness :
  exists f data out cause,
    Some broken_json = Some f
    /\ os_ReadFile os_demo (path f) = (data, None)
    /\ decoder decode_demo f data None = (out, Some cause)
    /\ fmt_Errorf "unmarshal: " (errors_New "unexpected end of JSON input")
       = fmt_Errorf "unmarshal: " cause.
Proof.
  destruct (Load_error_forms
              os_demo decode_demo (Some broken_json) [] None
              (fmt_Errorf "unmarshal: "
                          (errors_New "unexpected end of JSON input"))
              eq_refl)
    as [[H _]|[(f & data & cause & _ & _ & H)|H]].
  - discriminate H.
  - discriminate H.
  - exact H.
Defined.

(** X5: whatever its outcome, [Load] on a non-nil [File] makes exactly one
    operating-system call, [os.ReadFile] on the file's own path; on the nil
    receiver it makes none. It never asks for an absolute path, and the
    receiver is left as it was. *)
Theorem Load_reads_once (os : OS) (json : Unmarshaler) (fp : option File)
        (tr : list Event) :
  snd (Load os json (mkSt fp tr))
  = mkSt fp (tr ++ match fp with
                   | Some f => [EvReadFile (path f)]
                   | None => []
                   end)%list.
Proof.
  destruct fp as [f|].
  - rewrite file_spec.Load_non_nil. reflexivity.
  - rewrite file_spec.Load_nil, app_nil_r. reflexivity.
Qed.

(** X6: [String] has no nil check: on the nil receiver it panics with a nil
    dereference before any operating-system call. On a non-nil [File] it
    makes exactly one call, [filepath.Abs] on the file's path, and never
    reads the file. *)
Theorem String_calls (os : OS) (tr : list Event) :
  String os (mkSt None tr) = (Panicked nil_dereference, mkSt None tr)
  /\ forall f,
       snd (String os (mkSt (Some f) tr))
       = mkSt (Some f) (tr ++ [EvAbs (path f)])%list.
Proof.
  split; [reflexivity|].
  intros f. rewrite file_spec.String_non_nil. reflexivity.
Qed.

(** X7: a decoder set on the [File] replaces the default one altogether:
    with [unmarshal] non-nil, what [Load] returns and does is the same
    whatever [json.Unmarshal] would do. *)
Theorem Load_custom_decoder (os : OS) (json json' : Unmarshaler) (f : File)
        (u : Unmarshaler) (tr : list Event) :
  unmarshal f = Some u ->
  Load os json (mkSt (Some f) tr) = Load os json' (mkSt (Some f) tr)
  /\ forall data out,
       os_ReadFile os (path f) = (data, None) ->
       u data None = (out, None) ->
       fst (Load os json (mkSt (Some f) tr)) = Returned (out, None).
Proof.
  intros Hu. rewrite !file_spec.Load_non_nil. unfold decoder. rewrite Hu.
  split; [reflexivity|].
  intros data out Hr Hd. rewrite Hr, Hd. reflexivity.
Qed.

Lemma Load_custom_decoder_witness :
  Load os_demo decode_demo
       (mkSt (Some (mkFile "broken.json" (Some decode_fixed) None)) [])
  = Load os_demo decode_fixed
         (mkSt (Some (mkFile "broken.json" (Some decode_fixed) None)) [])
  /\ fst (Load os_demo decode_demo
               (mkSt (Some (mkFile "broken.json" (Some decode_fixed) None)) []))
     = Returned (Some [("config", Str "fixed")], None).
Proof.
  destruct (Load_custom_decoder
              os_demo decode_demo decode_fixed
              (mkFile "broken.json" (Some decode_fixed) None)
              decode_fixed [] eq_refl)
    as [Hsame Hout].
  split; [exact Hsame|].
  apply (Hout (list_byte_of_string "{")); reflexivity.
Defined.

(** X8: the [onStatus] field is never used: two files that differ in it
    only give the same [Load] and the same [String]; and [String] does not
    depend on the decoder either, only on the path. *)
Theorem onStatus_is_unused (os : OS) (json : Unmarshaler) (p : string)
        (u u' : option Unmarshaler) (h h' : option StatusHook)
        (tr : list Event) :
  fst (Load os json (mkSt (Some (mkFile p u h)) tr))
  = fst (Load os json (mkSt (Some (mkFile p u h')) tr))
  /\ fst (String os (mkSt (Some (mkFile p u h)) tr))
     = fst (String os (mkSt (Some (mkFile p u' h')) tr)).
Proof.
  rewrite !file_spec.Load_non_nil, !file_spec.String_non_nil.
  split; reflexivity.
Qed.

End file_more.

(** * Properties of the providers and the log handler of the test file *)

Module konf_test_spec.
Import konf_test.

(** The loop over a schedule of values only: it forwards each one and then
    waits. *)
Lemma stringWatcher_loop_values (W : Type) (m : stringWatcher)
      (fn : Tree -> W -> W) (vs : list string) (rest : list Ready) (w : W) :
  stringWatcher_loop W m (Some fn) (map Recv vs ++ rest) w
  = stringWatcher_loop W m (Some fn) rest
      (fold_left (fun acc v => fn [(key m, Str v)] acc) vs w).
Proof.
  revert w; induction vs as [|v vs IH]; intros w; simpl.
  - reflexivity.
  - apply IH.
Qed.


(** X9: with a context and a callback, [stringWatcher.Watch] hands every
    value that arrives before the cancellation to the callback, once each
    and in order of arrival, as a map with the single key [m.key]; at the
    cancellation it returns nil and what arrives later is not forwarded.
    Without a cancellation it has forwarded all values and still waits. *)
Theorem stringWatcher_Watch_forwards (W : Type) (m : stringWatcher)
        (ctx : konf.Context) (fn : Tree -> W -> W) (vs : list string)
        (rest : list Ready) (w : W) :
  stringWatcher_Watch W m (Some ctx) (Some fn)
                      (map Recv vs ++ Cancelled :: rest) w
  = (Finished None, fold_left (fun acc v => fn [(key m, Str v)] acc) vs w)
  /\ stringWatcher_Watch W m (Some ctx) (Some fn) (map Recv vs) w
     = (Waiting, fold_left (fun acc v => fn [(key m, Str v)] acc) vs w).
Proof.
  unfold stringWatcher_Watch. split.
  - rewrite stringWatcher_loop_values. reflexivity.
  - rewrite <- (app_nil_r (map Recv vs)), stringWatcher_loop_values.
    reflexivity.
Qed.



Lemma eqb_length_nil (A : Type) (l : list A) :
  Nat.eqb (List.length l) 0 = true <-> l = [].
Proof.
  destruct l; simpl; split; intros H; try reflexivity; discriminate H.
Qed.

Lemma ReplaceAttr_time (Value : Type) (zeroValue : Value)
      (groups : list string) (attr : Attr Value) :
  groups = [] -> Key Value attr = TimeKey ->
  ReplaceAttr Value zeroValue groups attr = mkAttr Value "" zeroValue.
Proof.
  intros -> Hk. unfold ReplaceAttr. rewrite Hk. reflexivity.
Qed.

Lemma ReplaceAttr_other (Value : Type) (zeroValue : Value)
      (groups : list string) (attr : Attr Value) :
  groups <> [] \/ Key Value attr <> TimeKey ->
  ReplaceAttr Value zeroValue groups attr = attr.
Proof.
  intros H. unfold ReplaceAttr.
  destruct (Nat.eqb (List.length groups) 0) eqn:Hlen; [|reflexivity].
  destruct (String.eqb (Key Value attr) TimeKey) eqn:Hkey; [|reflexivity].
  apply eqb_length_nil in Hlen. apply String.eqb_eq in Hkey.
  destruct H as [H|H]; [elim (H Hlen) | elim (H Hkey)].
Qed.

Lemma ReplaceAttr_cases (Value : Type) (groups : list string)
      (attr : Attr Value) :
  (groups = [] /\ Key Value attr = TimeKey)
  \/ (groups <> [] \/ Key Value attr <> TimeKey).
Proof.
  destruct groups as [|g groups].
  - destruct (String.eqb (Key Value attr) TimeKey) eqn:Hkey.
    + left. split; [reflexivity | now apply String.eqb_eq].
    + right; right. now apply String.eqb_neq.
  - right; left. intros H; discriminate H.
Qed.

(** X12: the [ReplaceAttr] function of [logHandler] changes an attribute
    only if it is the time attribute outside of every group, which it
    replaces by the empty attribute; applying it twice is applying it once,
    and outside of groups it never lets an attribute with the time key
    through. *)
Theorem ReplaceAttr_drops_time_only (Value : Type) (zeroValue : Value)
        (groups : list string) (attr : Attr Value) :
  (ReplaceAttr Value zeroValue groups attr <> attr ->
   groups = [] /\ Key Value attr = TimeKey
   /\ ReplaceAttr Value zeroValue groups attr = mkAttr Value "" zeroValue)
  /\ ReplaceAttr Value zeroValue groups
                 (ReplaceAttr Value zeroValue groups attr)
     = ReplaceAttr Value zeroValue groups attr
  /\ (groups = [] ->
      Key Value (ReplaceAttr Value zeroValue groups attr) <> TimeKey)
  /\ (groups <> [] -> ReplaceAttr Value zeroValue groups attr = attr).
Proof.
  destruct (ReplaceAttr_cases Value groups attr) as [[Hg Hk]|Hother].
  - rewrite (ReplaceAttr_time Value zeroValue groups attr Hg Hk).
    split; [|split; [|split]].
    + intros _. repeat split; assumption.
    + apply ReplaceAttr_other. right. intros H; discriminate H.
    + intros _ H; discriminate H.
    + intros H; elim (H Hg).
  - rewrite !(ReplaceAttr_other Value zeroValue groups attr Hother).
    split; [|split; [|split]].
    + intros H; elim H; reflexivity.
    + reflexivity.
    + intros Hg. destruct Hother as [H|H]; [elim (H Hg) | exact H].
    + reflexivity.
Qed.

Lemma ReplaceAttr_drops_time_only_witness :
  ReplaceAttr string "" [] (mkAttr string "time" "12:00")
  = mkAttr string "" ""
  /\ Key string (ReplaceAttr string "" [] (mkAttr string "time" "12:00"))
     <> TimeKey
  /\ ReplaceAttr string "" ["request"] (mkAttr string "time" "12:00")
     = mkAttr string "time" "12:00".
Proof.
  destruct (ReplaceAttr_drops_time_only
              string "" [] (mkAttr string "time" "12:00"))
    as (Hchg & _ & Htop & _).
  destruct (ReplaceAttr_drops_time_only
              string "" ["request"] (mkAttr string "time" "12:00"))
    as (_ & _ & _ & Hgrp).
  split; [|split].
  - apply Hchg. vm_compute. intros H; discriminate H.
  - apply Htop. reflexivity.
  - apply Hgrp. intros H; discriminate H.
Defined.

End konf_test_spec.
